(** * exercise.py: a Redis-backed cache with call counting, call history
      and replay

    A shallow embedding of [0x02-redis_basic/exercise.py].  The Python
    module talks to a Redis server through the redis-py client, draws its
    keys from [uuid.uuid4] and reports failures with [print].  All three
    are made explicit here: the server is a finite map from keys to typed
    values, every command consults a schedule of transport faults, the
    random draws are a supply carried by the world, and standard output is
    the list of texts handed to [print].

    Conventions.
    - A Python [str] is represented by its UTF-8 encoding, held in a
      [string]; [bytes] are [list byte].  Encoding a [str] is therefore
      the identity on the underlying octets and decoding is a strict
      validity check.
    - [repr] of [str], [bytes] and [float] belongs to the interpreter and
      is taken as a parameter (class [Builtins]); [repr] of [int] is
      decimal text and is computed.
    - The server's counters are integers without the 64-bit bound of a
      real Redis server. *)

From Stdlib Require Import ZArith NArith String Ascii List Bool.
From Stdlib Require Import DecimalString Decimal DecimalZ DecimalPos DecimalFacts.
From Stdlib Require Import Floats Lia.
From Stdlib.Strings Require Import Byte.
From stdpp Require Import gmap strings list.

Local Open Scope Z_scope.

(** ** Octets and text *)

Abbreviation bytes := (list byte).

(** [s.encode("utf-8")] on the representation of a [str]. *)
Definition encode_utf8 (s : string) : bytes := list_byte_of_string s.

Definition in_range (lo hi : N) (b : byte) : bool :=
  (lo <=? Byte.to_N b)%N && (Byte.to_N b <=? hi)%N.

Definition cont (b : byte) : bool := in_range 128 191 b.

(** Strict UTF-8 well-formedness (RFC 3629): no overlong forms, no
    surrogates, nothing above U+10FFFF.  This is what
    [bytes.decode("utf-8")] accepts. *)
Fixpoint utf8_valid (bs : bytes) : bool :=
  match bs with
  | [] => true
  | b0 :: r0 =>
      if in_range 0 127 b0 then utf8_valid r0
      else match r0 with
      | [] => false
      | b1 :: r1 =>
          if in_range 194 223 b0 then cont b1 && utf8_valid r1
          else match r1 with
          | [] => false
          | b2 :: r2 =>
              if in_range 224 224 b0
              then in_range 160 191 b1 && cont b2 && utf8_valid r2
              else if in_range 237 237 b0
              then in_range 128 159 b1 && cont b2 && utf8_valid r2
              else if in_range 225 239 b0
              then cont b1 && cont b2 && utf8_valid r2
              else match r2 with
              | [] => false
              | b3 :: r3 =>
                  if in_range 240 240 b0
                  then in_range 144 191 b1 && cont b2 && cont b3
                       && utf8_valid r3
                  else if in_range 241 243 b0
                  then cont b1 && cont b2 && cont b3 && utf8_valid r3
                  else if in_range 244 244 b0
                  then in_range 128 143 b1 && cont b2 && cont b3
                       && utf8_valid r3
                  else false
              end
          end
      end
  end.

(** [b.decode("utf-8")]: [None] stands for [UnicodeDecodeError]. *)
Definition decode_utf8 (b : bytes) : option string :=
  if utf8_valid b then Some (string_of_list_byte b) else None.

(** ** Integers as text *)

(** [repr(n)] / [str(n)] for a Python [int]: canonical decimal. *)
Definition int_repr (z : Z) : string := NilZero.string_of_int (Z.to_int z).

(** ASCII white space as [Py_ISSPACE] sees it. *)
Definition is_space (b : byte) : bool :=
  in_range 9 13 b || in_range 32 32 b.

Definition is_digit (b : byte) : bool := in_range 48 57 b.

Fixpoint lstrip (l : bytes) : bytes :=
  match l with
  | b :: r => if is_space b then lstrip r else l
  | [] => []
  end.

Definition strip (l : bytes) : bytes := rev (lstrip (rev (lstrip l))).

(** Digits with single underscores allowed between them, as the integer
    literal grammar of [int()] has it.  [prev] tells whether the previous
    character was a digit; the result is the text without underscores. *)
Fixpoint digit_groups (prev : bool) (l : bytes) : option bytes :=
  match l with
  | [] => if prev then Some [] else None
  | b :: r =>
      if is_digit b then option_map (cons b) (digit_groups true r)
      else if in_range 95 95 b
      then (if prev then digit_groups false r else None)
      else None
  end.

Definition digits_value (l : bytes) : option Z :=
  match digit_groups false l with
  | Some ds => option_map Z.of_uint
                 (NilEmpty.uint_of_string (string_of_list_byte ds))
  | None => None
  end.

(** [int(b)] for [b : bytes], base 10.  [None] stands for [ValueError]. *)
Definition py_int (b : bytes) : option Z :=
  match strip b with
  | c :: r =>
      if in_range 43 43 c then digits_value r
      else if in_range 45 45 c then option_map Z.opp (digits_value r)
      else digits_value (c :: r)
  | [] => None
  end.

(** The integer a Redis string value stands for, as [INCR] reads it: only
    the canonical decimal form is accepted (no sign [+], no leading zero,
    no blanks). *)
Definition redis_int (b : bytes) : option Z :=
  match NilZero.int_of_string (string_of_list_byte b) with
  | Some d =>
      if decide (int_repr (Z.of_int d) = string_of_list_byte b)
      then Some (Z.of_int d) else None
  | None => None
  end.

(** ** Python values and exceptions *)

(** The values that travel through the module: the four scalar kinds
    [store] is annotated with, plus [None] and [bool], which the
    annotations do not keep out. *)
Inductive pyval :=
| PNone
| PBool (b : bool)
| PInt (z : Z)
| PFloat (f : float)
| PStr (s : string)
| PBytes (b : bytes).

(** Keyword arguments, in call order. *)
Abbreviation kwargs := (list (string * pyval)).

(** The classes under [redis.RedisError] the client raises. *)
Inductive redis_error :=
| ConnectionError   (* the transport failed *)
| ResponseError     (* the server answered with an error *)
| DataError.        (* the client cannot encode the argument *)

Inductive exn :=
| RedisError (k : redis_error) (msg : string)
| ValueError (literal : bytes)
| UnicodeDecodeError (input : bytes)
| TypeError (msg : string)
| OtherError (cls msg : string).

Definition is_redis_error (e : exn) : bool :=
  match e with RedisError _ _ => true | _ => false end.

(** What a call produces: a value, or an exception on its way up. *)
Inductive outcome (A : Type) :=
| Ret (a : A)
| Raise (e : exn).
Arguments Ret {A} a.
Arguments Raise {A} e.

Definition returns {A} (o : outcome A) : bool :=
  match o with Ret _ => true | Raise _ => false end.

(** The interpreter's [repr] for the kinds whose rendering is not
    computed here. *)
Class Builtins := {
  repr_str : string -> string;
  repr_bytes : bytes -> string;
  repr_float : float -> string
}.

Section Rendering.
Context `{Builtins}.

Definition py_repr (v : pyval) : string :=
  match v with
  | PNone => "None"
  | PBool true => "True"
  | PBool false => "False"
  | PInt z => int_repr z
  | PFloat f => repr_float f
  | PStr s => repr_str s
  | PBytes b => repr_bytes b
  end.

(** [str(v)]: a [str] is itself, everything else goes through [repr]. *)
Definition py_str (v : pyval) : string :=
  match v with
  | PStr s => s
  | _ => py_repr v
  end.

Fixpoint join_reprs (vs : list pyval) : string :=
  match vs with
  | [] => ""
  | [v] => py_repr v
  | v :: r => py_repr v +:+ ", " +:+ join_reprs r
  end.

(** [str(args)] for the tuple of positional arguments. *)
Definition tuple_str (args : list pyval) : string :=
  match args with
  | [] => "()"
  | [v] => "(" +:+ py_repr v +:+ ",)"
  | _ => "(" +:+ join_reprs args +:+ ")"
  end.

(** The client-side encoder of redis-py: what is sent for a value, or
    [DataError] for a value it refuses. *)
Definition redis_encode (v : pyval) : outcome bytes :=
  match v with
  | PBytes b => Ret b
  | PBool _ =>
      Raise (RedisError DataError
        "Invalid input of type: 'bool'. Convert to a bytes, string, int or float first.")
  | PInt z => Ret (encode_utf8 (int_repr z))
  | PFloat f => Ret (encode_utf8 (repr_float f))
  | PStr s => Ret (encode_utf8 s)
  | PNone =>
      Raise (RedisError DataError
        "Invalid input of type: 'NoneType'. Convert to a bytes, string, int or float first.")
  end.
End Rendering.

(** The annotation [Union[str, bytes, int, float]] of [store]. *)
Definition supported (v : pyval) : bool :=
  match v with
  | PStr _ | PBytes _ | PInt _ | PFloat _ => true
  | PNone | PBool _ => false
  end.

(** ** The world: server, transport, randomness, standard output *)

(** A Redis value is a string or a list of strings. *)
Inductive rval :=
| RStr (b : bytes)
| RList (l : list bytes).

(** How the next command fares on the wire. *)
Inductive fault :=
| NoFault
| Lost (msg : string)      (* the request never reached the server *)
| Dropped (msg : string).  (* the server ran it, the reply was lost *)

Record world := World {
  db : gmap string rval;     (* the server's key space *)
  faults : list fault;       (* one entry per coming command; none left
                                means no fault *)
  urandom : list N;          (* coming 128-bit draws of [uuid4]; zeros
                                once they are used up *)
  stdout : list string       (* texts given to [print], oldest first *)
}.

(** No command to come is disturbed. *)
Definition healthy (w : world) : Prop :=
  Forall (fun f => f = NoFault) (faults w).

(** ** Computations *)

Definition M (A : Type) : Type := world -> outcome A * world.

Definition ret {A} (a : A) : M A := fun w => (Ret a, w).

Definition raise {A} (e : exn) : M A := fun w => (Raise e, w).

Definition bind {A B} (c : M A) (k : A -> M B) : M B :=
  fun w =>
    match c w with
    | (Ret a, w') => k a w'
    | (Raise e, w') => (Raise e, w')
    end.

Notation "x <- c ;; k" := (bind c (fun x => k))
  (at level 100, c at next level, right associativity).
Notation "c ;;; k" := (bind c (fun _ => k))
  (at level 100, right associativity).

(** [try: c  except redis.RedisError as e: h(e)]: only the [RedisError]
    family is handled, [e] being rendered by [str(e)]. *)
Definition try_redis {A} (c : M A) (h : string -> M A) : M A :=
  fun w =>
    match c w with
    | (Raise (RedisError _ msg), w') => h msg w'
    | r => r
    end.

Definition print (s : string) : M unit :=
  fun w => (Ret tt, World (db w) (faults w) (urandom w) (stdout w ++ [s])).

(** Lines of a printed text, and of everything printed: [print] ends its
    text with a newline, and a newline inside the text breaks the line as
    well. *)
Fixpoint split_lines (cur : string) (s : string) : list string :=
  match s with
  | EmptyString => [cur]
  | String c r =>
      if Ascii.eqb c "010" then cur :: split_lines "" r
      else split_lines (cur +:+ String c "") r
  end.

Definition printed_lines (out : list string) : list string :=
  concat (map (split_lines "") out).

(** ** The Redis server *)

Definition wrong_type {A} : outcome A :=
  Raise (RedisError ResponseError
    "WRONGTYPE Operation against a key holding the wrong kind of value").

Definition not_an_integer {A} : outcome A :=
  Raise (RedisError ResponseError "value is not an integer or out of range").

(** A command is a function from the key space to a reply and the key
    space it leaves. *)
Definition command (A : Type) : Type :=
  gmap string rval -> outcome A * gmap string rval.

Definition srv_get (k : string) : command (option bytes) := fun d =>
  match d !! k with
  | None => (Ret None, d)
  | Some (RStr b) => (Ret (Some b), d)
  | Some (RList _) => (wrong_type, d)
  end.

Definition srv_set (k : string) (b : bytes) : command unit := fun d =>
  (Ret tt, <[k := RStr b]> d).

Definition srv_incr (k : string) : command Z := fun d =>
  match d !! k with
  | None => (Ret 1, <[k := RStr (encode_utf8 (int_repr 1))]> d)
  | Some (RStr b) =>
      match redis_int b with
      | Some z => (Ret (z + 1), <[k := RStr (encode_utf8 (int_repr (z + 1)))]> d)
      | None => (not_an_integer, d)
      end
  | Some (RList _) => (wrong_type, d)
  end.

Definition srv_rpush (k : string) (v : bytes) : command Z := fun d =>
  match d !! k with
  | None => (Ret 1, <[k := RList [v]]> d)
  | Some (RList l) =>
      (Ret (Z.of_nat (length l) + 1), <[k := RList (l ++ [v])]> d)
  | Some (RStr _) => (wrong_type, d)
  end.

(** [LRANGE]: both ends inclusive, negative indices count from the end. *)
Definition lrange {A} (l : list A) (start stop : Z) : list A :=
  let len := Z.of_nat (length l) in
  let start := if start <? 0 then Z.max 0 (start + len) else start in
  let stop := if stop <? 0 then stop + len else stop in
  let stop := Z.min stop (len - 1) in
  if (stop <? start) || (len <=? start) then []
  else take (Z.to_nat (stop - start + 1)) (drop (Z.to_nat start) l).

Definition srv_lrange (k : string) (start stop : Z) : command (list bytes) :=
  fun d =>
  match d !! k with
  | None => (Ret [], d)
  | Some (RList l) => (Ret (lrange l start stop), d)
  | Some (RStr _) => (wrong_type, d)
  end.

Definition srv_flushdb : command unit := fun _ => (Ret tt, ∅).

(** ** The client: one command over the wire *)

Definition transport {A} (c : command A) : M A := fun w =>
  match faults w with
  | [] =>
      let '(r, d) := c (db w) in (r, World d [] (urandom w) (stdout w))
  | NoFault :: fs =>
      let '(r, d) := c (db w) in (r, World d fs (urandom w) (stdout w))
  | Lost msg :: fs =>
      (Raise (RedisError ConnectionError msg),
       World (db w) fs (urandom w) (stdout w))
  | Dropped msg :: fs =>
      let '(_, d) := c (db w) in
      (Raise (RedisError ConnectionError msg), World d fs (urandom w) (stdout w))
  end.

Definition redis_get (k : string) : M (option bytes) := transport (srv_get k).

Definition redis_incr (k : string) : M Z := transport (srv_incr k).

Definition redis_lrange (k : string) (start stop : Z) : M (list bytes) :=
  transport (srv_lrange k start stop).

(** [flushdb(asynchronous)]: the flag only says how the server frees the
    memory. *)
Definition redis_flushdb (asynchronous : bool) : M unit := transport srv_flushdb.

Section Client.
Context `{Builtins}.

(** Arguments are encoded before anything is sent. *)
Definition redis_set (k : string) (v : pyval) : M unit :=
  match redis_encode v with
  | Ret b => transport (srv_set k b)
  | Raise e => raise e
  end.

Definition redis_rpush (k : string) (v : pyval) : M Z :=
  match redis_encode v with
  | Ret b => transport (srv_rpush k b)
  | Raise e => raise e
  end.

End Client.

(** ** [uuid.uuid4] and [str] of its result *)

(** The 128-bit integer of a version 4 UUID made from a random draw. *)
Definition uuid4_int (r : N) : N :=
  let n := (r mod 2 ^ 128)%N in
  let n := N.ldiff n (N.shiftl 0xc000 48) in
  let n := N.lor n (N.shiftl 0x8000 48) in
  let n := N.ldiff n (N.shiftl 0xf000 64) in
  N.lor n (N.shiftl 4 76).

Definition hex_digit (d : N) : ascii :=
  if (d <? 10)%N then ascii_of_N (48 + d) else ascii_of_N (87 + d).

(** The [width] low hexadecimal digits of [n], most significant first, in
    front of [acc]. *)
Fixpoint hex_fixed (width : nat) (n : N) (acc : string) : string :=
  match width with
  | O => acc
  | S w => hex_fixed w (n / 16)%N (String (hex_digit (n mod 16)%N) acc)
  end.

(** [str(u)]: the 32 digits in groups of 8-4-4-4-12. *)
Definition uuid_str (n : N) : string :=
  let hex := hex_fixed 32 n "" in
  String.substring 0 8 hex +:+ "-" +:+ String.substring 8 4 hex +:+ "-"
  +:+ String.substring 12 4 hex +:+ "-" +:+ String.substring 16 4 hex
  +:+ "-" +:+ String.substring 20 12 hex.

Definition uuid4 : M N := fun w =>
  match urandom w with
  | [] => (Ret (uuid4_int 0), w)
  | r :: rs => (Ret (uuid4_int r), World (db w) (faults w) rs (stdout w))
  end.

(** ** exercise.py *)

(** A method as the decorators see it: called on the facade with
    positional and keyword arguments. *)
Definition method : Type := list pyval -> kwargs -> M pyval.

Definition newline : string := String "010" "".

Section Program.
Context `{Builtins}.

(** [count_calls(method)]; [qualname] is [method.__qualname__]. *)
Definition count_calls (qualname : string) (m : method) : method :=
  fun args kw =>
    try_redis (redis_incr qualname ;;; ret tt)
      (fun e => print ("Redis error while incrementing call count: " +:+ e)) ;;;
    m args kw.

(** [call_history(method)]. *)
Definition call_history (qualname : string) (m : method) : method :=
  fun args kw =>
    let in_key := qualname +:+ ":inputs" in
    let out_key := qualname +:+ ":outputs" in
    try_redis (redis_rpush in_key (PStr (tuple_str args)) ;;; ret tt)
      (fun e => print ("Redis error while pushing inputs: " +:+ e)) ;;;
    output <- m args kw ;;
    try_redis (redis_rpush out_key (PStr (py_str output)) ;;; ret tt)
      (fun e => print ("Redis error while pushing outputs: " +:+ e)) ;;;
    ret output.

(** [Cache.__init__].  Creating the client object opens no connection;
    the first command sent is the flush. *)
Definition Cache_init : M unit :=
  try_redis (redis_flushdb true)
    (fun e => print ("Redis connection error: " +:+ e)).

(** The body of [Cache.store], below the decorators. *)
Definition store_body (data : pyval) : M pyval :=
  u <- uuid4 ;;
  let data_key := uuid_str u in
  try_redis (redis_set data_key data)
    (fun e => print ("Redis error while storing data: " +:+ e)) ;;;
  ret (PStr data_key).

(** Binding of a call to the signature [store(self, data)]. *)
Definition store_undecorated : method := fun args kw =>
  match args, kw with
  | [data], [] => store_body data
  | [], [(name, data)] =>
      if decide (name = "data") then store_body data
      else raise (TypeError
             ("Cache.store() got an unexpected keyword argument '"
              +:+ name +:+ "'"))
  | [], [] =>
      raise (TypeError
        "Cache.store() missing 1 required positional argument: 'data'")
  | _, _ =>
      raise (TypeError "Cache.store() called with arguments it does not take")
  end.

(** [@call_history @count_calls def store]: [functools.wraps] hands the
    qualified name of [store] on to both wrappers. *)
Definition Cache_store : method :=
  call_history "Cache.store" (count_calls "Cache.store" store_undecorated).

(** [Cache.get(key, fn)]. *)
Definition Cache_get (key : string) (fn : option (bytes -> M pyval)) : M pyval :=
  try_redis
    (data <- redis_get key ;;
     match data with
     | None => ret PNone
     | Some b =>
         match fn with
         | Some f => f b
         | None => ret (PBytes b)
         end
     end)
    (fun e => print ("Redis error while getting data: " +:+ e) ;;; ret PNone).

(** [lambda x: x.decode("utf-8")] *)
Definition decode_fn (x : bytes) : M pyval :=
  match decode_utf8 x with
  | Some s => ret (PStr s)
  | None => raise (UnicodeDecodeError x)
  end.

(** [lambda x: int(x)] *)
Definition int_fn (x : bytes) : M pyval :=
  match py_int x with
  | Some z => ret (PInt z)
  | None => raise (ValueError x)
  end.

Definition Cache_get_str (key : string) : M pyval :=
  Cache_get key (Some decode_fn).

Definition Cache_get_int (key : string) : M pyval :=
  Cache_get key (Some int_fn).

(** *** [replay] *)

(** The object [fn.__self__] of a bound method. *)
Inductive receiver :=
| Facade                          (* its [_redis] is a [redis.Redis] *)
| Plain (attr : option pyval).    (* any other object, with the value of
                                     its [_redis] attribute if it has one *)

(** What [replay] may be handed. *)
Inductive pyobj :=
| OValue (v : pyval)                              (* a plain value *)
| OFunction (qualname : string)                   (* a function not bound
                                                     to an instance *)
| OBoundMethod (self : receiver) (qualname : string).

(** [bool(fn)] *)
Definition truthy (fn : pyobj) : bool :=
  match fn with
  | OValue PNone => false
  | OValue (PBool b) => b
  | OValue (PInt z) => negb (z =? 0)
  | OValue (PFloat f) => negb (PrimFloat.eqb f 0)
  | OValue (PStr s) => negb (String.eqb s "")
  | OValue (PBytes b) => match b with [] => false | _ => true end
  | OFunction _ | OBoundMethod _ _ => true
  end.

(** [isinstance(getattr(r, "_redis", None), redis.Redis)] *)
Definition has_redis (r : receiver) : bool :=
  match r with Facade => true | Plain _ => false end.

(** One turn of the loop over [zip(fxn_inputs, fxn_outputs)].  The text
    is a triple-quoted literal that runs over two source lines, so it
    holds the line break and the indentation of its second line. *)
Definition replay_entry (fxn_name : string) (i o : string) : string :=
  fxn_name +:+ "(*" +:+ i +:+ ")->" +:+ newline
  +:+ "                  " +:+ o.

Fixpoint replay_loop (fxn_name : string) (pairs : list (bytes * bytes)) : M unit :=
  match pairs with
  | [] => ret tt
  | (fxn_input, fxn_output) :: rest =>
      match decode_utf8 fxn_input with
      | None => raise (UnicodeDecodeError fxn_input)
      | Some i =>
          match decode_utf8 fxn_output with
          | None => raise (UnicodeDecodeError fxn_output)
          | Some o =>
              print (replay_entry fxn_name i o) ;;;
              replay_loop fxn_name rest
          end
      end
  end.

(** [int(redis_store.get(fxn_name) or 0)]: an absent key and an empty
    string are both falsy. *)
Definition call_count (raw : option bytes) : M Z :=
  match raw with
  | None | Some [] => ret 0
  | Some b =>
      match py_int b with
      | Some z => ret z
      | None => raise (ValueError b)
      end
  end.

Definition summary (fxn_name : string) (count : Z) : string :=
  fxn_name +:+ " was called " +:+ int_repr count +:+ " times:".

(** Only a bound method has the attribute [__self__], and with it a
    [__qualname__]. *)
Definition replay (fn : pyobj) : M unit :=
  match truthy fn, fn with
  | true, OBoundMethod self fxn_name =>
      if has_redis self then
        let in_key := fxn_name +:+ ":inputs" in
        let out_key := fxn_name +:+ ":outputs" in
        try_redis
          (raw <- redis_get fxn_name ;;
           fxn_call_count <- call_count raw ;;
           print (summary fxn_name fxn_call_count) ;;;
           fxn_inputs <- redis_lrange in_key 0 (-1) ;;
           fxn_outputs <- redis_lrange out_key 0 (-1) ;;
           replay_loop fxn_name (zip fxn_inputs fxn_outputs))
          (fun e => print ("Redis error during replay: " +:+ e))
      else print "No Redis instance found."
  | _, _ => print "Invalid method provided for replay."
  end.

End Program.

(** * Vocabulary of the statements *)

(** ** Outcomes *)

(** An outcome that is a value or an error of the [RedisError] family. *)
Definition redis_outcome {A} (o : outcome A) : Prop :=
  match o with
  | Ret _ => True
  | Raise e => is_redis_error e = true
  end.

(** A command only ever fails with an error of the [RedisError] family. *)
Definition redis_only {A} (c : command A) : Prop :=
  forall d, redis_outcome (fst (c d)).

(** The world after a command sent from inside
    [try: ...  except redis.RedisError as e: print(f"<report>{e}")]: the
    command has had its effect, and its failure, if any, has been
    printed. *)
Definition noted {A} (report : string) (c : M A) (w : world) : world :=
  match c w with
  | (Raise (RedisError _ msg), w1) =>
      World (db w1) (faults w1) (urandom w1) (stdout w1 ++ [report +:+ msg])
  | (_, w1) => w1
  end.

(** The world in which the method wrapped by [count_calls] starts. *)
Definition counted (qualname : string) : world -> world :=
  noted "Redis error while incrementing call count: " (redis_incr qualname).

Section Recording.
Context `{Builtins}.

(** The world in which the method wrapped by [call_history] starts. *)
Definition inputs_noted (qualname : string) (args : list pyval) : world -> world :=
  noted "Redis error while pushing inputs: "
    (redis_rpush (qualname +:+ ":inputs") (PStr (tuple_str args))).

(** The world the wrapper leaves once the method has returned [output]. *)
Definition outputs_noted (qualname : string) (output : pyval) : world -> world :=
  noted "Redis error while pushing outputs: "
    (redis_rpush (qualname +:+ ":outputs") (PStr (py_str output))).

(** One call [store(v)] laid out flat: four commands, each one followed
    by the report of its failure, and the key handed back at the end. *)
Definition store_trace (v : pyval) (w : world) : outcome pyval * world :=
  let w1 := inputs_noted "Cache.store" [v] w in
  let w2 := counted "Cache.store" w1 in
  match uuid4 w2 with
  | (Ret u, w3) =>
      let w4 := noted "Redis error while storing data: "
                  (redis_set (uuid_str u) v) w3 in
      (Ret (PStr (uuid_str u)),
       outputs_noted "Cache.store" (PStr (uuid_str u)) w4)
  | (Raise e, w3) => (Raise e, w3)
  end.

End Recording.

(** ** The bookkeeping on the server *)

(** How the server holds a counter that has been incremented [n] times
    from nothing, and a list that has been pushed to: a key appears with
    its first write. *)
Definition counter_repr (n : nat) : option rval :=
  match n with
  | O => None
  | S _ => Some (RStr (encode_utf8 (int_repr (Z.of_nat n))))
  end.

Definition history_repr (l : list bytes) : option rval :=
  match l with
  | [] => None
  | _ => Some (RList l)
  end.

Section Scenarios.
Context `{Builtins}.

(** The key space after one undisturbed call [store(v)] that drew [key]:
    the four commands of the call in the order they are sent. *)
Definition db_after_store (v : pyval) (key : string) (d : gmap string rval)
  : gmap string rval :=
  let d1 := snd (srv_rpush "Cache.store:inputs" (encode_utf8 (tuple_str [v])) d) in
  let d2 := snd (srv_incr "Cache.store" d1) in
  let d3 := match redis_encode v with
            | Ret b => <[key := RStr b]> d2
            | Raise _ => d2
            end in
  snd (srv_rpush "Cache.store:outputs" (encode_utf8 key) d3).

(** [store(v1); ...; store(vN)], collecting the keys returned. *)
Fixpoint store_each (vs : list pyval) : M (list pyval) :=
  match vs with
  | [] => ret []
  | v :: rest =>
      k <- Cache_store [v] [] ;;
      ks <- store_each rest ;;
      ret (k :: ks)
  end.

End Scenarios.

(** The text of a key as [store] returns it. *)
Definition key_text (k : pyval) : string :=
  match k with PStr s => s | _ => "" end.

(** ** Replay *)

(** A bound method of a facade that holds a Redis client. *)
Definition valid_ref (fn : pyobj) : bool :=
  match fn with
  | OBoundMethod Facade _ => true
  | _ => false
  end.

(** Text that [bytes.decode("utf-8")] gives back from its encoding. *)
Definition utf8_text (s : string) : Prop := utf8_valid (encode_utf8 s) = true.

(** Number of line breaks in a text. *)
Fixpoint newlines (s : string) : nat :=
  match s with
  | EmptyString => O
  | String c r => (if Ascii.eqb c "010" then 1 else 0) + newlines r
  end.

(** ** Text *)

(** A run of decimal digits. *)
Definition plain_digits (l : bytes) : Prop :=
  Forall (fun b => is_digit b = true) l.

(** A stand-in for the interpreter's [repr], used to run the examples.
    It agrees with Python on text without quotes, backslashes or control
    characters, on bytes of the same kind, and on the floats [0.0] and
    [-0.0]; the examples stay within that domain. *)
Definition sample_builtins : Builtins := {|
  repr_str s := "'" +:+ s +:+ "'";
  repr_bytes b := "b'" +:+ string_of_list_byte b +:+ "'";
  repr_float f := if PrimFloat.ltb (PrimFloat.div 1 f) 0 then "-0.0" else "0.0"
|}.

(** ** Reports and readers *)

(** What a guarded command prints: the report of its failure, if any. *)
Definition reports_of {A} (report : string) (o : outcome A) : list string :=
  match o with
  | Raise (RedisError _ msg) => [report +:+ msg]
  | _ => []
  end.

(** A computation that leaves the key space and the random supply as
    they are. *)
Definition read_only {A} (c : M A) : Prop :=
  forall w, db (snd (c w)) = db w /\ urandom (snd (c w)) = urandom w.

(** * Properties *)

(** ** Decimal text *)

Lemma bytes_of_string_inv (s : string) :
  string_of_list_byte (encode_utf8 s) = s.
Proof. apply string_of_list_byte_of_string. Qed.

Lemma to_int_not_nil (z : Z) : Z.to_int z <> Pos Nil /\ Z.to_int z <> Neg Nil.
Proof.
  destruct z as [|p|p]; cbn; split; try discriminate;
    intros E; injection E as E; revert E; apply Unsigned.to_uint_nonnil.
Qed.

(** The server reads back the counters it writes. *)
Lemma redis_int_repr (z : Z) : redis_int (encode_utf8 (int_repr z)) = Some z.
Proof.
  unfold redis_int. rewrite bytes_of_string_inv. unfold int_repr at 1.
  destruct (to_int_not_nil z) as [Hp Hn].
  rewrite (NilZero.isi _ Hp Hn), DecimalZ.of_to.
  destruct (decide _) as [_|Hne]; [reflexivity | contradiction].
Qed.

Lemma encode_cons (a : ascii) (s : string) :
  encode_utf8 (String a s) = byte_of_ascii a :: encode_utf8 s.
Proof. reflexivity. Qed.

Lemma uint_digits (d : uint) : plain_digits (encode_utf8 (NilEmpty.string_of_uint d)).
Proof.
  induction d; cbn [NilEmpty.string_of_uint]; try rewrite encode_cons;
    constructor; solve [reflexivity | assumption].
Qed.

Lemma digit_not_space (b : byte) : is_digit b = true -> is_space b = false.
Proof.
  unfold is_digit, is_space, in_range. intros Hd.
  apply andb_true_iff in Hd as [H1 H2].
  apply N.leb_le in H1. apply N.leb_le in H2.
  apply orb_false_iff; split; apply andb_false_iff; right;
    apply N.leb_gt; lia.
Qed.

Lemma lstrip_head (b : byte) (l : bytes) :
  is_space b = false -> lstrip (b :: l) = b :: l.
Proof. intros Hb. cbn. now rewrite Hb. Qed.

Lemma strip_id (l : bytes) :
  Forall (fun b => is_space b = false) l -> strip l = l.
Proof.
  intros Hl. unfold strip.
  assert (Hid : forall m : bytes,
             Forall (fun b => is_space b = false) m -> lstrip m = m).
  { intros m Hm. destruct Hm as [|b m Hb _]; [reflexivity|].
    now apply lstrip_head. }
  rewrite (Hid l Hl), Hid, rev_involutive; [reflexivity|].
  now apply Forall_rev.
Qed.

Lemma digit_groups_plain (l : bytes) (prev : bool) :
  plain_digits l -> l <> [] -> digit_groups prev l = Some l.
Proof.
  intros Hl. revert prev. induction Hl as [|b l Hb Hl IH]; intros prev Hne.
  - contradiction.
  - cbn. rewrite Hb. destruct l as [|c l'].
    + reflexivity.
    + rewrite (IH true); [reflexivity | discriminate].
Qed.

Lemma digits_value_uint (d : uint) :
  d <> Nil ->
  digits_value (encode_utf8 (NilEmpty.string_of_uint d)) = Some (Z.of_uint d).
Proof.
  intros Hd. unfold digits_value.
  rewrite digit_groups_plain.
  - now rewrite bytes_of_string_inv, NilEmpty.usu.
  - apply uint_digits.
  - destruct d; try contradiction; cbn [NilEmpty.string_of_uint];
      rewrite encode_cons; discriminate.
Qed.

Lemma string_of_pos_uint (p : positive) :
  NilZero.string_of_uint (Pos.to_uint p) = NilEmpty.string_of_uint (Pos.to_uint p).
Proof.
  pose proof (Unsigned.to_uint_nonnil p) as Hn.
  destruct (Pos.to_uint p); [contradiction | reflexivity ..].
Qed.

Lemma digits_value_pos (p : positive) :
  digits_value (encode_utf8 (NilEmpty.string_of_uint (Pos.to_uint p)))
  = Some (Z.pos p).
Proof.
  rewrite digits_value_uint by apply Unsigned.to_uint_nonnil.
  unfold Z.of_uint. now rewrite Unsigned.of_to.
Qed.

(** [int()] reads back what [str()] writes for an integer. *)
Lemma py_int_repr (z : Z) : py_int (encode_utf8 (int_repr z)) = Some z.
Proof.
  unfold py_int, int_repr. destruct z as [|p|p]; cbn [Z.to_int NilZero.string_of_int].
  - reflexivity.
  - rewrite string_of_pos_uint.
    pose proof (uint_digits (Pos.to_uint p)) as Hd.
    pose proof (digits_value_pos p) as Hv.
    rewrite strip_id
      by (eapply Forall_impl; [exact Hd | intros b; apply digit_not_space]).
    destruct (encode_utf8 _) as [|c r] eqn:E; [discriminate Hv|].
    apply Forall_inv in Hd. unfold is_digit, in_range in Hd |- *.
    apply andb_true_iff in Hd as [H1 H2].
    apply N.leb_le in H1. apply N.leb_le in H2.
    replace (43 <=? Byte.to_N c)%N with true by (symmetry; apply N.leb_le; lia).
    replace (Byte.to_N c <=? 43)%N with false by (symmetry; apply N.leb_gt; lia).
    replace (45 <=? Byte.to_N c)%N with true by (symmetry; apply N.leb_le; lia).
    replace (Byte.to_N c <=? 45)%N with false by (symmetry; apply N.leb_gt; lia).
    exact Hv.
  - rewrite string_of_pos_uint, encode_cons.
    pose proof (uint_digits (Pos.to_uint p)) as Hd.
    rewrite strip_id.
    + cbn. now rewrite digits_value_pos.
    + constructor; [reflexivity|].
      eapply Forall_impl; [exact Hd | intros b; apply digit_not_space].
Qed.

Lemma decode_encode (s : string) : utf8_text s -> decode_utf8 (encode_utf8 s) = Some s.
Proof.
  unfold utf8_text, decode_utf8. intros ->. now rewrite bytes_of_string_inv.
Qed.

(** ** The server and the wire *)

Lemma lrange_all {A} (l : list A) : lrange l 0 (-1) = l.
Proof.
  unfold lrange. cbn [Z.ltb Z.compare].
  destruct l as [|a l]; [reflexivity|].
  set (len := Z.of_nat (length (a :: l))).
  assert (Hlen : 1 <= len) by (subst len; cbn [length]; lia).
  rewrite Z.min_r by lia.
  replace (len - 1 <? 0) with false by (symmetry; apply Z.ltb_ge; lia).
  replace (len <=? 0) with false by (symmetry; apply Z.leb_gt; lia).
  cbn [orb Z.to_nat drop].
  replace (Z.to_nat (len - 1 - 0 + 1)) with (length (a :: l)) by (subst len; lia).
  apply firstn_all.
Qed.

Lemma srv_get_redis_only k : redis_only (srv_get k).
Proof.
  intros d. unfold srv_get.
  destruct (d !! k) as [[]|]; exact eq_refl || exact I.
Qed.

Lemma srv_set_redis_only k b : redis_only (srv_set k b).
Proof. intros d. exact I. Qed.

Lemma srv_incr_redis_only k : redis_only (srv_incr k).
Proof.
  intros d. unfold srv_incr.
  destruct (d !! k) as [[b|]|]; [destruct (redis_int b)|..];
    exact eq_refl || exact I.
Qed.

Lemma srv_rpush_redis_only k v : redis_only (srv_rpush k v).
Proof.
  intros d. unfold srv_rpush.
  destruct (d !! k) as [[]|]; exact eq_refl || exact I.
Qed.

Lemma srv_lrange_redis_only k a b : redis_only (srv_lrange k a b).
Proof.
  intros d. unfold srv_lrange.
  destruct (d !! k) as [[]|]; exact eq_refl || exact I.
Qed.

Lemma srv_flushdb_redis_only : redis_only srv_flushdb.
Proof. intros d. exact I. Qed.

Create HintDb redis.
#[local] Hint Resolve srv_get_redis_only srv_set_redis_only srv_incr_redis_only
  srv_rpush_redis_only srv_lrange_redis_only srv_flushdb_redis_only : redis.

(** What a command sent over the wire can come back with. *)
Lemma transport_redis_only {A} (c : command A) (w : world) :
  redis_only c -> redis_outcome (fst (transport c w)).
Proof.
  intros Hc. unfold transport. specialize (Hc (db w)).
  destruct (faults w) as [|[|msg|msg] fs]; destruct (c (db w)) as [r d];
    cbn in *; auto.
Qed.

Lemma healthy_tail (w : world) d u s :
  healthy w -> healthy (World d (tl (faults w)) u s).
Proof.
  unfold healthy. cbn. intros Hw.
  destruct Hw as [|f fs _ Hfs]; [constructor | exact Hfs].
Qed.

(** On a healthy wire a command is just the server running it. *)
Lemma transport_healthy {A} (c : command A) (w : world) :
  healthy w ->
  transport c w =
  (fst (c (db w)),
   World (snd (c (db w))) (tl (faults w)) (urandom w) (stdout w)).
Proof.
  unfold healthy, transport. intros Hw.
  destruct Hw as [|f fs Hf _]; [|subst f]; destruct (c (db w)); reflexivity.
Qed.

Lemma srv_rpush_other k v d k' : k <> k' -> snd (srv_rpush k v d) !! k' = d !! k'.
Proof.
  intros Hk. unfold srv_rpush. destruct (d !! k) as [[b|l]|]; cbn;
    [reflexivity | now rewrite lookup_insert_ne ..].
Qed.

Lemma srv_incr_other k d k' : k <> k' -> snd (srv_incr k d) !! k' = d !! k'.
Proof.
  intros Hk. unfold srv_incr.
  destruct (d !! k) as [[b|l]|]; [destruct (redis_int b)|..]; cbn;
    solve [reflexivity | now rewrite lookup_insert_ne].
Qed.

Lemma srv_rpush_same k v d l :
  d !! k = history_repr l -> snd (srv_rpush k v d) !! k = history_repr (l ++ [v]).
Proof.
  intros Hk. unfold srv_rpush. rewrite Hk.
  destruct l as [|a l]; cbn; now rewrite lookup_insert_eq.
Qed.

Lemma srv_incr_same k d n :
  d !! k = counter_repr n -> snd (srv_incr k d) !! k = counter_repr (S n).
Proof.
  intros Hk. unfold srv_incr. rewrite Hk. destruct n as [|n]; cbn [counter_repr].
  - cbn. now rewrite lookup_insert_eq.
  - rewrite redis_int_repr. cbn [snd]. rewrite lookup_insert_eq.
    replace (Z.of_nat (S n) + 1) with (Z.of_nat (S (S n))) by lia.
    reflexivity.
Qed.

Lemma get_counter_healthy (q : string) (w : world) (n : nat) :
  healthy w -> db w !! q = counter_repr n ->
  exists raw,
    redis_get q w = (Ret raw, World (db w) (tl (faults w)) (urandom w) (stdout w))
    /\ forall w', call_count raw w' = (Ret (Z.of_nat n), w').
Proof.
  intros Hw Hq. unfold redis_get.
  rewrite (transport_healthy _ w Hw). unfold srv_get. rewrite Hq.
  destruct n as [|n]; cbn [counter_repr fst snd].
  - exists None. split; reflexivity.
  - eexists; split; [reflexivity|]. intros w'.
    pose proof (py_int_repr (Z.of_nat (S n))) as Hp.
    unfold call_count. destruct (encode_utf8 _) as [|c r]; [discriminate Hp|].
    now rewrite Hp.
Qed.

Lemma lrange_history_healthy (k : string) (w : world) (l : list bytes) :
  healthy w -> db w !! k = history_repr l ->
  redis_lrange k 0 (-1) w
  = (Ret l, World (db w) (tl (faults w)) (urandom w) (stdout w)).
Proof.
  intros Hw Hk. unfold redis_lrange.
  rewrite (transport_healthy _ w Hw). unfold srv_lrange. rewrite Hk.
  destruct l as [|a l]; [reflexivity|]. cbn [history_repr fst snd].
  now rewrite lrange_all.
Qed.

(** ** Keys never clash with the bookkeeping *)

Lemma uuid_str_length (n : N) : String.length (uuid_str n) = 36%nat.
Proof. reflexivity. Qed.

Lemma uuid_str_fresh (n : N) (q : string) :
  String.length q <> 36%nat -> uuid_str n <> q.
Proof. intros Hq E. apply Hq. rewrite <- E. apply uuid_str_length. Qed.

(** ** Sequencing and guarded commands *)

Lemma bind_ret {A B} (c : M A) (k : A -> M B) (w w' : world) (a : A) :
  c w = (Ret a, w') -> bind c k w = k a w'.
Proof. intros E. unfold bind. now rewrite E. Qed.

Lemma bind_assoc {A B C} (c : M A) (k1 : A -> M B) (k2 : B -> M C) (w : world) :
  bind (bind c k1) k2 w = bind c (fun a => bind (k1 a) k2) w.
Proof. unfold bind. destruct (c w) as [[a|e] w1]; reflexivity. Qed.

(** A guarded command always returns, in the world [noted] describes. *)
Lemma noted_try {A} (report : string) (c : M A) (w : world) :
  redis_outcome (fst (c w)) ->
  try_redis (c ;;; ret tt) (fun e => print (report +:+ e)) w
  = (Ret tt, noted report c w).
Proof.
  unfold try_redis, noted, bind, ret, print.
  destruct (c w) as [[a|e] w1]; cbn; intros He; [reflexivity|].
  destruct e; try discriminate He. reflexivity.
Qed.

Lemma noted_try_unit (report : string) (c : M unit) (w : world) :
  redis_outcome (fst (c w)) ->
  try_redis c (fun e => print (report +:+ e)) w = (Ret tt, noted report c w).
Proof.
  unfold try_redis, noted, print.
  destruct (c w) as [[[]|e] w1]; cbn; intros He; [reflexivity|].
  destruct e; try discriminate He. reflexivity.
Qed.

(** Whatever a guarded command does, it takes its turn on the wire and
    leaves the random supply alone. *)
Lemma noted_transport {A} (report : string) (c : command A) (w : world) :
  faults (noted report (transport c) w) = tl (faults w)
  /\ urandom (noted report (transport c) w) = urandom w.
Proof.
  unfold noted, transport.
  destruct (faults w) as [|[|msg|msg] fs]; destruct (c (db w)) as [[a|e] d];
    try destruct e; cbn; auto.
Qed.

Lemma uuid4_returns (w : world) :
  exists u w', uuid4 w = (Ret u, w').
Proof. unfold uuid4. destruct (urandom w); eauto. Qed.

Lemma redis_incr_outcome (q : string) (w : world) :
  redis_outcome (fst (redis_incr q w)).
Proof. apply transport_redis_only. auto with redis. Qed.

Section Client.
Context `{Builtins}.

Lemma redis_set_outcome k v w : redis_outcome (fst (redis_set k v w)).
Proof.
  unfold redis_set. destruct v; cbn [redis_encode];
    try exact eq_refl; apply transport_redis_only, srv_set_redis_only.
Qed.

Lemma redis_rpush_outcome k v w : redis_outcome (fst (redis_rpush k v w)).
Proof.
  unfold redis_rpush. destruct v; cbn [redis_encode];
    try exact eq_refl; apply transport_redis_only, srv_rpush_redis_only.
Qed.

End Client.

(** ** Counting calls *)

(** C5.  A call through [count_calls] is the wrapped call itself, made
    after the increment has gone out on the wire: outcome and final world
    are those of the method started in [counted].  When the increment
    fails, exactly one report is printed and the method runs all the same;
    when it succeeds nothing is printed. *)
Theorem count_calls_increment_first
    (q : string) (m : method) (args : list pyval) (kw : kwargs) (w : world) :
  count_calls q m args kw w = m args kw (counted q w)
  /\ faults (counted q w) = tl (faults w)
  /\ urandom (counted q w) = urandom w
  /\ match fst (redis_incr q w) with
     | Ret _ => stdout (counted q w) = stdout w
     | Raise e =>
         exists msg,
           stdout (counted q w)
           = stdout w ++ ["Redis error while incrementing call count: " +:+ msg]
     end.
Proof.
  split.
  { unfold count_calls.
    now rewrite (bind_ret _ _ _ _ _ (noted_try _ _ w (redis_incr_outcome q w))). }
  split; [apply noted_transport|]. split; [apply noted_transport|].
  pose proof (redis_incr_outcome q w) as Hout.
  unfold counted, noted, redis_incr, transport in *.
  destruct (faults w) as [|[|msg|msg] fs];
    destruct (srv_incr q (db w)) as [[z|e] d]; cbn in *;
    try (destruct e; try discriminate Hout); cbn; eauto.
Qed.

(** ** Reading what was never stored *)



(** ** Construction *)


(** ** Replay of something that is not an instrumented method *)



(** ** Exceptions at the facade *)

Section Facade.
Context `{Builtins}.

(** [store] never leaves its four guarded commands by an exception. *)
Lemma store_noted (v : pyval) (w : world) : Cache_store [v] [] w = store_trace v w.
Proof.
  unfold Cache_store, call_history, count_calls, store_undecorated, store_body,
    store_trace, inputs_noted, outputs_noted, counted.
  rewrite (bind_ret _ _ _ _ _ (noted_try _ _ w (redis_rpush_outcome _ _ w))).
  set (w1 := noted _ _ w).
  rewrite !bind_assoc.
  rewrite (bind_ret _ _ _ _ _ (noted_try _ _ w1 (redis_incr_outcome _ w1))).
  set (w2 := noted _ _ w1).
  destruct (uuid4_returns w2) as (u & w3 & E3).
  rewrite !bind_assoc, (bind_ret _ _ _ _ _ E3), !bind_assoc, E3.
  rewrite (bind_ret _ _ _ _ _
             (noted_try_unit _ _ w3 (redis_set_outcome _ _ w3))).
  set (w4 := noted _ _ w3).
  unfold ret at 1. unfold bind at 1. cbn beta iota.
  now rewrite (bind_ret _ _ _ _ _ (noted_try _ _ w4 (redis_rpush_outcome _ _ w4))).
Qed.

Lemma store_returns (v : pyval) (w : world) :
  exists k w', Cache_store [v] [] w = (Ret (PStr k), w').
Proof.
  rewrite store_noted. unfold store_trace.
  destruct (uuid4_returns (counted "Cache.store" (inputs_noted "Cache.store" [v] w)))
    as (u & w3 & E3).
  rewrite E3. eauto.
Qed.

Lemma get_reports (key : string) (fn : option (bytes -> M pyval))
    (d : gmap string rval) (msg : string) (fs : list fault) u s :
  Cache_get key fn (World d (Lost msg :: fs) u s)
  = (Ret PNone, World d fs u (s ++ ["Redis error while getting data: " +:+ msg])).
Proof. reflexivity. Qed.

Lemma get_outcome (key : string) (fn : option (bytes -> M pyval)) (w : world) :
  match fst (Cache_get key fn w) with
  | Ret _ => True
  | Raise e =>
      is_redis_error e = false
      /\ exists f b w1,
           fn = Some f /\ db w !! key = Some (RStr b)
           /\ fst (f b w1) = Raise e
  end.
Proof.
  unfold Cache_get, try_redis, bind, redis_get, transport, srv_get, ret, print.
  destruct (faults w) as [|[|msg|msg] fs];
    destruct (db w !! key) as [[b|l]|] eqn:Hk;
    cbn; auto; destruct fn as [f|]; cbn; auto.
  all: match goal with g : bytes -> M pyval |- context [?g' ?b ?w1] =>
         constr_eq g g'; destruct (g b w1) as [[v|e] w2] eqn:E end; cbn; auto.
  all: destruct e; cbn; auto; (split; [reflexivity|]); eexists _, _, _;
         (split; [reflexivity|]); (split; [reflexivity|]);
         rewrite E; reflexivity.
Qed.


End Facade.


(** ** One call of [store] on an undisturbed wire *)

Section Store.
Context `{Builtins}.

Lemma guarded_healthy {A} (c : command A) (h : string -> string) (w : world) :
  healthy w -> redis_only c ->
  exists w',
    try_redis (transport c ;;; ret tt) (fun e => print (h e)) w = (Ret tt, w')
    /\ healthy w' /\ db w' = snd (c (db w)).
Proof.
  intros Hw Hc. unfold try_redis, bind, ret, print.
  rewrite (transport_healthy c w Hw). specialize (Hc (db w)).
  destruct (c (db w)) as [[a|e] d]; cbn in *.
  - eexists; split; [reflexivity|]. split; [now apply healthy_tail | reflexivity].
  - destruct e; try discriminate Hc.
    eexists; split; [reflexivity|]. split; [now apply healthy_tail | reflexivity].
Qed.

Lemma set_healthy (k : string) (v : pyval) (h : string -> string) (w : world) :
  healthy w ->
  exists w',
    try_redis (redis_set k v) (fun e => print (h e)) w = (Ret tt, w')
    /\ healthy w'
    /\ db w' = match redis_encode v with
               | Ret b => <[k := RStr b]> (db w)
               | Raise _ => db w
               end.
Proof.
  intros Hw. unfold redis_set.
  destruct (redis_encode v) as [b|e] eqn:Ev.
  - unfold try_redis. rewrite (transport_healthy _ w Hw). cbn.
    eexists; split; [reflexivity|]. split; [now apply healthy_tail | reflexivity].
  - destruct v; try discriminate Ev; injection Ev as <-; cbn;
      (eexists; split; [reflexivity|]; split; [exact Hw | reflexivity]).
Qed.

Lemma uuid4_healthy (w : world) :
  healthy w -> exists u w', uuid4 w = (Ret u, w') /\ healthy w' /\ db w' = db w.
Proof. intros Hw. unfold uuid4. destruct (urandom w); eauto 6. Qed.

Lemma store_healthy (v : pyval) (w : world) :
  healthy w ->
  exists u w',
    Cache_store [v] [] w = (Ret (PStr (uuid_str u)), w')
    /\ healthy w'
    /\ db w' = db_after_store v (uuid_str u) (db w).
Proof.
  intros Hw.
  unfold Cache_store, call_history, count_calls, store_undecorated, store_body.
  unfold redis_rpush, redis_incr. cbn [redis_encode].
  destruct (guarded_healthy
              (srv_rpush ("Cache.store" +:+ ":inputs")
                 (encode_utf8 (tuple_str [v])))
              (fun e => "Redis error while pushing inputs: " +:+ e) w Hw)
    as (w1 & E1 & Hw1 & D1); [apply srv_rpush_redis_only|].
  rewrite (bind_ret _ _ _ _ _ E1), !bind_assoc.
  destruct (guarded_healthy (srv_incr "Cache.store")
              (fun e => "Redis error while incrementing call count: " +:+ e) w1 Hw1)
    as (w2 & E2 & Hw2 & D2); [apply srv_incr_redis_only|].
  rewrite (bind_ret _ _ _ _ _ E2).
  destruct (uuid4_healthy w2 Hw2) as (u & w3 & E3 & Hw3 & D3).
  rewrite !bind_assoc, (bind_ret _ _ _ _ _ E3), !bind_assoc.
  destruct (set_healthy (uuid_str u) v
              (fun e => "Redis error while storing data: " +:+ e) w3 Hw3)
    as (w4 & E4 & Hw4 & D4).
  rewrite (bind_ret _ _ _ _ _ E4).
  unfold ret at 1. unfold bind at 1. cbn beta iota.
  destruct (guarded_healthy
              (srv_rpush ("Cache.store" +:+ ":outputs")
                 (encode_utf8 (uuid_str u)))
              (fun e => "Redis error while pushing outputs: " +:+ e) w4 Hw4)
    as (w5 & E5 & Hw5 & D5); [apply srv_rpush_redis_only|].
  cbn [py_str].
  rewrite (bind_ret _ _ _ _ _ E5).
  exists u, w5. split; [reflexivity|]. split; [exact Hw5|].
  unfold db_after_store. rewrite D5, D4, D3, D2, D1. reflexivity.
Qed.

Lemma db_after_store_key v key d b :
  redis_encode v = Ret b -> key <> "Cache.store:outputs" ->
  db_after_store v key d !! key = Some (RStr b).
Proof.
  intros Ev Hk. unfold db_after_store. rewrite Ev.
  rewrite srv_rpush_other by congruence. apply lookup_insert_eq.
Qed.

Lemma db_after_store_books v key d n ins outs :
  key <> "Cache.store" -> key <> "Cache.store:inputs" ->
  key <> "Cache.store:outputs" ->
  d !! "Cache.store" = counter_repr n ->
  d !! "Cache.store:inputs" = history_repr ins ->
  d !! "Cache.store:outputs" = history_repr outs ->
  db_after_store v key d !! "Cache.store" = counter_repr (S n)
  /\ db_after_store v key d !! "Cache.store:inputs"
     = history_repr (ins ++ [encode_utf8 (tuple_str [v])])
  /\ db_after_store v key d !! "Cache.store:outputs"
     = history_repr (outs ++ [encode_utf8 key]).
Proof.
  intros K1 K2 K3 Hc Hi Ho. unfold db_after_store.
  set (d1 := snd (srv_rpush _ _ d)).
  set (d2 := snd (srv_incr _ d1)).
  set (d3 := match redis_encode v with Ret b => _ | Raise _ => _ end).
  assert (H3 : forall k, k <> key -> d3 !! k = d2 !! k).
  { intros k Hk. subst d3. destruct (redis_encode v); [|reflexivity].
    now rewrite lookup_insert_ne. }
  split; [|split].
  - rewrite srv_rpush_other by discriminate. rewrite H3 by congruence.
    subst d2. apply srv_incr_same. subst d1.
    now rewrite srv_rpush_other by discriminate.
  - rewrite srv_rpush_other by discriminate. rewrite H3 by congruence.
    subst d2. rewrite srv_incr_other by discriminate.
    subst d1. now apply srv_rpush_same.
  - apply srv_rpush_same. rewrite H3 by congruence.
    subst d2. rewrite srv_incr_other by discriminate.
    subst d1. now rewrite srv_rpush_other by discriminate.
Qed.

Lemma store_each_books (vs : list pyval) :
  forall (w : world) (n : nat) (ins outs : list bytes),
    healthy w ->
    db w !! "Cache.store" = counter_repr n ->
    db w !! "Cache.store:inputs" = history_repr ins ->
    db w !! "Cache.store:outputs" = history_repr outs ->
    exists ks w',
      store_each vs w = (Ret ks, w')
      /\ healthy w'
      /\ length ks = length vs
      /\ db w' !! "Cache.store" = counter_repr (n + length vs)
      /\ db w' !! "Cache.store:inputs"
         = history_repr (ins ++ map (fun v => encode_utf8 (tuple_str [v])) vs)
      /\ db w' !! "Cache.store:outputs"
         = history_repr (outs ++ map (fun k => encode_utf8 (py_str k)) ks).
Proof.
  induction vs as [|v vs IH]; intros w n ins outs Hw Hc Hi Ho.
  - exists [], w. cbn. rewrite Nat.add_0_r, !app_nil_r. auto 10.
  - destruct (store_healthy v w Hw) as (u & w1 & E1 & Hw1 & D1).
    destruct (db_after_store_books v (uuid_str u) (db w) n ins outs)
      as (Hc1 & Hi1 & Ho1); try assumption;
      try (apply uuid_str_fresh; discriminate).
    rewrite <- D1 in Hc1, Hi1, Ho1.
    destruct (IH w1 (S n) _ _ Hw1 Hc1 Hi1 Ho1)
      as (ks & w2 & E2 & Hw2 & Hl & Hc2 & Hi2 & Ho2).
    exists (PStr (uuid_str u) :: ks), w2.
    cbn [store_each]. rewrite (bind_ret _ _ _ _ _ E1), (bind_ret _ _ _ _ _ E2).
    split; [reflexivity|]. split; [exact Hw2|].
    split; [cbn; now rewrite Hl|].
    split; [rewrite Hc2; f_equal; cbn; lia|].
    split; [rewrite Hi2, <- app_assoc; reflexivity|].
    rewrite Ho2, <- app_assoc. reflexivity.
Qed.



End Store.



(** ** What [call_history] records *)

Section History.
Context `{Builtins}.


End History.


(** ** Replay of an instrumented method *)

Lemma replay_loop_prints (q : string) (is_ os : list string) :
  Forall utf8_text is_ -> Forall utf8_text os ->
  forall w,
    replay_loop q (zip (map encode_utf8 is_) (map encode_utf8 os)) w
    = (Ret tt,
       World (db w) (faults w) (urandom w)
         (stdout w ++ map (fun io => replay_entry q io.1 io.2) (zip is_ os))).
Proof.
  intros Hi. revert os. induction Hi as [|i is_ Hi _ IH]; intros os Ho w.
  - cbn. rewrite app_nil_r. now destruct w.
  - destruct Ho as [|o os Ho Hos].
    + cbn. rewrite app_nil_r. now destruct w.
    + cbn [map zip zip_with replay_loop].
      rewrite (decode_encode i Hi), (decode_encode o Ho).
      unfold bind at 1, print at 1. cbn [fst snd].
      rewrite (IH os Hos). cbn [db faults urandom stdout].
      now rewrite <- app_assoc.
Qed.



Lemma newlines_app (a b : string) : newlines (a +:+ b) = (newlines a + newlines b)%nat.
Proof.
  induction a as [|c a IH]; [reflexivity|].
  change (String c a +:+ b) with (String c (a +:+ b)).
  cbn [newlines]. rewrite IH. lia.
Qed.

Lemma split_lines_length (s cur : string) :
  length (split_lines cur s) = S (newlines s).
Proof.
  revert cur. induction s as [|c s IH]; intros cur; cbn; [reflexivity|].
  destruct (Ascii.eqb c "010"); cbn; now rewrite IH.
Qed.

Lemma printed_lines_length (out : list string) :
  length (printed_lines out)
  = (length out + list_sum (map newlines out))%nat.
Proof.
  unfold printed_lines. induction out as [|s out IH]; [reflexivity|].
  cbn [map concat list_sum length]. rewrite length_app, split_lines_length, IH.
  change (list_sum (newlines s :: map newlines out))
    with (newlines s + list_sum (map newlines out))%nat.
  lia.
Qed.

Lemma replay_entry_breaks (q i o : string) : (1 <= newlines (replay_entry q i o))%nat.
Proof.
  unfold replay_entry. rewrite !newlines_app. cbn. lia.
Qed.

(** Every turn of the loop of [replay] puts at least two lines on standard output. *)
Lemma replay_entries_lines (q : string) (ios : list (string * string)) :
  (2 * length ios
   <= length (printed_lines (map (fun io => replay_entry q io.1 io.2) ios)))%nat.
Proof.
  rewrite printed_lines_length, length_map.
  induction ios as [|io ios IH]; [cbn; lia|].
  cbn [map length].
  change (list_sum (?x :: ?l)) with (x + list_sum l)%nat.
  pose proof (replay_entry_breaks q io.1 io.2). lia.
Qed.

(** C4 at [cache = Cache(); cache.store("foo"); replay(cache.store)]:
    the single recorded call comes out as two lines below the summary,
    the second one indented, where one line per call is expected. *)
Theorem replay_one_call_three_lines :
  printed_lines
    (stdout
       (snd ((Cache_init ;;;
              _ <- Cache_store (H := sample_builtins) [PStr "foo"] [] ;;
              replay (OBoundMethod Facade "Cache.store"))
               (World ∅ [] [0x13bf32a9a249466495fcb1062db2038f%N] []))))
  = ["Cache.store was called 1 times:";
     "Cache.store(*('foo',))->";
     "                  13bf32a9-a249-4664-95fc-b1062db2038f"].
Proof. vm_compute. reflexivity. Qed.

(** ** The module at work *)

Example tuple_str_single : tuple_str (H := sample_builtins) [PInt 42] = "(42,)".
Proof. reflexivity. Qed.

Example tuple_str_pair :
  tuple_str (H := sample_builtins) [PInt 1; PStr "a"] = "(1, 'a')".
Proof. reflexivity. Qed.

Example store_then_get_str :
  fst ((Cache_init ;;;
        k <- Cache_store (H := sample_builtins) [PStr "hello"] [] ;;
        Cache_get_str (key_text k)) (World ∅ [] [5%N] []))
  = Ret (PStr "hello").
Proof. vm_compute. reflexivity. Qed.

Example store_then_get_other_key :
  fst ((Cache_init ;;;
        k <- Cache_store (H := sample_builtins) [PStr "hello"] [] ;;
        Cache_get (key_text k +:+ "x") None) (World ∅ [] [5%N] []))
  = Ret PNone.
Proof. vm_compute. reflexivity. Qed.

Example store_then_get_int :
  fst ((Cache_init ;;;
        k <- Cache_store (H := sample_builtins) [PInt 123] [] ;;
        Cache_get_int (key_text k)) (World ∅ [] [5%N] []))
  = Ret (PInt 123).
Proof. vm_compute. reflexivity. Qed.

Example replay_after_construction :
  stdout (snd ((Cache_init ;;; replay (OBoundMethod Facade "Cache.store"))
                 (World {[ "Cache.store" := RStr (encode_utf8 "9") ]} [] [] [])))
  = ["Cache.store was called 0 times:"].
Proof. vm_compute. reflexivity. Qed.

Example counter_undercounts_on_a_lost_increment :
  let w := snd ((Cache_init ;;;
                 Cache_store (H := sample_builtins) [PInt 1] [])
                  (World ∅ [NoFault; NoFault; Lost "Connection reset by peer"]
                     [5%N] [])) in
  db w !! "Cache.store" = None
  /\ db w !! "Cache.store:inputs" = Some (RList [encode_utf8 "(1,)"])
  /\ db w !! "00000000-0000-4000-8000-000000000005" = Some (RStr (encode_utf8 "1"))
  /\ stdout w
     = ["Redis error while incrementing call count: Connection reset by peer"].
Proof. vm_compute. auto. Qed.

(** * Further properties *)

(** ** Reading back what [store] wrote *)

Lemma noted_healthy {A} (report : string) (c : command A) (w : world) :
  healthy w ->
  noted report (transport c) w
  = World (snd (c (db w))) (tl (faults w)) (urandom w)
      (stdout w ++ reports_of report (fst (c (db w)))).
Proof.
  intros Hw. unfold noted. rewrite (transport_healthy c w Hw).
  destruct (c (db w)) as [[a|e] d]; cbn [fst snd reports_of];
    [now rewrite app_nil_r|].
  destruct e; cbn [db faults urandom stdout]; now rewrite ?app_nil_r.
Qed.

(** Reading a key that holds a string, on an undisturbed wire. *)
Lemma get_held_healthy (key : string) (b : bytes) (w : world) :
  healthy w -> db w !! key = Some (RStr b) ->
  let w' := World (db w) (tl (faults w)) (urandom w) (stdout w) in
  Cache_get key None w = (Ret (PBytes b), w')
  /\ Cache_get_str key w
     = (match decode_utf8 b with
        | Some s => Ret (PStr s)
        | None => Raise (UnicodeDecodeError b)
        end, w')
  /\ Cache_get_int key w
     = (match py_int b with
        | Some z => Ret (PInt z)
        | None => Raise (ValueError b)
        end, w').
Proof.
  intros Hw Hk. cbn zeta.
  unfold Cache_get_str, Cache_get_int, Cache_get, try_redis, bind, redis_get.
  rewrite (transport_healthy _ w Hw). unfold srv_get. rewrite Hk.
  cbn [fst snd]. unfold decode_fn, int_fn, ret, raise.
  destruct (decode_utf8 b), (py_int b); auto.
Qed.

Lemma ascii_utf8 (l : bytes) :
  Forall (fun b => in_range 0 127 b = true) l -> utf8_valid l = true.
Proof.
  induction 1 as [|b l Hb _ IH]; [reflexivity|].
  cbn [utf8_valid]. now rewrite Hb.
Qed.

Lemma digit_ascii (b : byte) : is_digit b = true -> in_range 0 127 b = true.
Proof.
  unfold is_digit, in_range. intros Hd.
  apply andb_true_iff in Hd as [H1 H2].
  apply N.leb_le in H1. apply N.leb_le in H2.
  apply andb_true_iff; split; apply N.leb_le; lia.
Qed.

(** The decimal text of an integer is plain ASCII. *)
Lemma int_repr_text (n : Z) : utf8_text (int_repr n).
Proof.
  unfold utf8_text. apply ascii_utf8. unfold int_repr.
  destruct n as [|p|p]; cbn [Z.to_int NilZero.string_of_int].
  - repeat constructor.
  - rewrite string_of_pos_uint.
    eapply Forall_impl; [apply uint_digits | intros b; apply digit_ascii].
  - rewrite string_of_pos_uint, encode_cons. constructor; [reflexivity|].
    eapply Forall_impl; [apply uint_digits | intros b; apply digit_ascii].
Qed.

Section ReadBack.
Context `{Builtins}.

(** One call of [store] with an accepted value, then the key it left. *)
Lemma store_holds (v : pyval) (b : bytes) (w : world) :
  healthy w -> redis_encode v = Ret b ->
  exists u w1,
    Cache_store [v] [] w = (Ret (PStr (uuid_str u)), w1)
    /\ healthy w1
    /\ db w1 !! uuid_str u = Some (RStr b).
Proof.
  intros Hw Hb.
  destruct (store_healthy v w Hw) as (u & w1 & E1 & Hw1 & D1).
  exists u, w1. split; [exact E1|]. split; [exact Hw1|].
  rewrite D1. apply db_after_store_key; [exact Hb|].
  apply uuid_str_fresh. discriminate.
Qed.

(** X1.  On an undisturbed wire, a text stored with [store] is what
    [get_str] of the returned key gives back. *)
Theorem get_str_after_store (s : string) (w : world) :
  healthy w -> utf8_text s ->
  exists k w1 w2,
    Cache_store [PStr s] [] w = (Ret (PStr k), w1)
    /\ Cache_get_str k w1 = (Ret (PStr s), w2).
Proof.
  intros Hw Hs.
  destruct (store_holds (PStr s) (encode_utf8 s) w Hw eq_refl)
    as (u & w1 & E1 & Hw1 & Hk).
  destruct (get_held_healthy _ _ w1 Hw1 Hk) as (_ & Hstr & _).
  rewrite (decode_encode s Hs) in Hstr. eauto.
Qed.


(** X3.  Bytes that are not UTF-8 are stored and read back as they are
    by [get], but [get_str] of their key raises [UnicodeDecodeError]: the
    handler in [get] lets it through. *)
Theorem get_str_of_bytes_not_text (b : bytes) (w : world) :
  healthy w -> utf8_valid b = false ->
  exists k w1 w2,
    Cache_store [PBytes b] [] w = (Ret (PStr k), w1)
    /\ Cache_get k None w1 = (Ret (PBytes b), w2)
    /\ Cache_get_str k w1 = (Raise (UnicodeDecodeError b), w2).
Proof.
  intros Hw Hb.
  destruct (store_holds (PBytes b) b w Hw eq_refl) as (u & w1 & E1 & Hw1 & Hk).
  destruct (get_held_healthy _ _ w1 Hw1 Hk) as (Hget & Hstr & _).
  unfold decode_utf8 in Hstr. rewrite Hb in Hstr. eauto 6.
Qed.

(** X4.  A value whose stored bytes are not an integer literal is read
    back by [get], but [get_int] of its key raises [ValueError]. *)
Theorem get_int_of_non_number (v : pyval) (b : bytes) (w : world) :
  healthy w -> redis_encode v = Ret b -> py_int b = None ->
  exists k w1 w2,
    Cache_store [v] [] w = (Ret (PStr k), w1)
    /\ Cache_get k None w1 = (Ret (PBytes b), w2)
    /\ Cache_get_int k w1 = (Raise (ValueError b), w2).
Proof.
  intros Hw Hv Hb.
  destruct (store_holds v b w Hw Hv) as (u & w1 & E1 & Hw1 & Hk).
  destruct (get_held_healthy _ _ w1 Hw1 Hk) as (Hget & _ & Hint).
  rewrite Hb in Hint. eauto 6.
Qed.
End ReadBack.

Lemma get_str_after_store_witness :
  let w := World ∅ [] [5%N] [] in
  healthy w /\ utf8_text "héllo"
  /\ exists k w1 w2,
       Cache_store (H := sample_builtins) [PStr "héllo"] [] w = (Ret (PStr k), w1)
       /\ Cache_get_str k w1 = (Ret (PStr "héllo"), w2).
Proof.
  cbn zeta. split; [apply Forall_nil_2|]. split; [reflexivity|].
  apply (get_str_after_store (H := sample_builtins) "héllo" (World ∅ [] [5%N] []));
    [apply Forall_nil_2 | reflexivity].
Defined.


Lemma get_str_of_bytes_not_text_witness :
  let w := World ∅ [] [5%N] [] in
  healthy w /\ utf8_valid [xff] = false
  /\ exists k w1 w2,
       Cache_store (H := sample_builtins) [PBytes [xff]] [] w
       = (Ret (PStr k), w1)
       /\ Cache_get k None w1 = (Ret (PBytes [xff]), w2)
       /\ Cache_get_str k w1 = (Raise (UnicodeDecodeError [xff]), w2).
Proof.
  cbn zeta. split; [apply Forall_nil_2|]. split; [reflexivity|].
  apply (get_str_of_bytes_not_text (H := sample_builtins) [xff]
           (World ∅ [] [5%N] []));
    [apply Forall_nil_2 | reflexivity].
Defined.

Lemma get_int_of_non_number_witness :
  let w := World ∅ [] [5%N] [] in
  healthy w /\ py_int (encode_utf8 "12a") = None
  /\ exists k w1 w2,
       Cache_store (H := sample_builtins) [PStr "12a"] [] w = (Ret (PStr k), w1)
       /\ Cache_get k None w1 = (Ret (PBytes (encode_utf8 "12a")), w2)
       /\ Cache_get_int k w1 = (Raise (ValueError (encode_utf8 "12a")), w2).
Proof.
  cbn zeta. split; [apply Forall_nil_2|]. split; [reflexivity|].
  apply (get_int_of_non_number (H := sample_builtins) (PStr "12a")
           (encode_utf8 "12a") (World ∅ [] [5%N] []));
    [apply Forall_nil_2 | reflexivity | reflexivity].
Defined.

(** ** One call of [store], to the letter *)

Lemma uuid4_draw (w : world) :
  uuid4 w
  = (Ret (uuid4_int (hd 0%N (urandom w))),
     World (db w) (faults w) (tl (urandom w)) (stdout w)).
Proof. unfold uuid4. destruct w as [d f [|r rs] s]; reflexivity. Qed.

Section OneCall.
Context `{Builtins}.

Lemma noted_set_healthy (report k : string) (v : pyval) (w : world) :
  healthy w ->
  exists fs,
    Forall (fun f => f = NoFault) fs
    /\ noted report (redis_set k v) w
       = World (match redis_encode v with
                | Ret b => <[k := RStr b]> (db w)
                | Raise _ => db w
                end)
           fs (urandom w) (stdout w ++ reports_of report (redis_encode v)).
Proof.
  intros Hw. unfold redis_set.
  destruct (redis_encode v) as [b|e] eqn:Ev.
  - exists (tl (faults w)). split; [apply (healthy_tail w ∅ [] [] Hw)|].
    rewrite (noted_healthy _ _ w Hw). cbn. now rewrite app_nil_r.
  - exists (faults w). split; [exact Hw|].
    destruct v; try discriminate Ev; injection Ev as <-; reflexivity.
Qed.

Lemma store_call_books (v : pyval) (w : world) (n : nat) (ins outs : list bytes) :
  healthy w ->
  db w !! "Cache.store" = counter_repr n ->
  db w !! "Cache.store:inputs" = history_repr ins ->
  db w !! "Cache.store:outputs" = history_repr outs ->
  let key := uuid_str (uuid4_int (hd 0%N (urandom w))) in
  exists w',
    Cache_store [v] [] w = (Ret (PStr key), w')
    /\ healthy w'
    /\ db w' = db_after_store v key (db w)
    /\ urandom w' = tl (urandom w)
    /\ stdout w'
       = stdout w ++ reports_of "Redis error while storing data: " (redis_encode v).
Proof.
  intros Hw Hc Hi Ho key.
  assert (Hkey : key <> "Cache.store" /\ key <> "Cache.store:inputs"
                 /\ key <> "Cache.store:outputs")
    by (repeat split; apply uuid_str_fresh; discriminate).
  destruct Hkey as (K1 & K2 & K3).
  rewrite store_noted. unfold store_trace.
  unfold inputs_noted, counted, outputs_noted, redis_rpush, redis_incr.
  cbn [redis_encode py_str].
  change ("Cache.store" +:+ ":inputs") with "Cache.store:inputs".
  change ("Cache.store" +:+ ":outputs") with "Cache.store:outputs".
  rewrite (noted_healthy _ _ w Hw).
  set (d1 := snd (srv_rpush _ _ (db w))).
  set (w1 := World d1 _ _ _).
  assert (Hw1 : healthy w1) by (subst w1; now apply healthy_tail).
  rewrite (noted_healthy _ _ w1 Hw1).
  change (db w1) with d1.
  set (d2 := snd (srv_incr _ d1)).
  set (w2 := World d2 _ _ _).
  assert (Hw2 : healthy w2) by (subst w2; now apply healthy_tail).
  rewrite (uuid4_draw w2).
  change (urandom w2) with (urandom w). fold key.
  change (db w2) with d2.
  set (w3 := World d2 _ _ _).
  assert (Hw3 : healthy w3) by exact Hw2.
  destruct (noted_set_healthy "Redis error while storing data: " key v w3 Hw3)
    as (fs & Hfs & ->).
  change (db w3) with d2.
  set (d3 := match redis_encode v with Ret b => _ | Raise _ => _ end).
  set (w4 := World d3 fs _ _).
  assert (Hw4 : healthy w4) by exact Hfs.
  rewrite (noted_healthy _ _ w4 Hw4).
  change (db w4) with d3.
  eexists. split; [reflexivity|].
  split; [now apply healthy_tail|].
  split; [reflexivity|]. split; [reflexivity|].
  cbn [stdout]. subst w4 w3 w2 w1. cbn [db stdout].
  assert (R1 : reports_of "Redis error while pushing inputs: "
                 (fst (srv_rpush "Cache.store:inputs"
                         (encode_utf8 (tuple_str [v])) (db w))) = []).
  { unfold srv_rpush. rewrite Hi. now destruct ins. }
  assert (D1 : d1 !! "Cache.store" = counter_repr n).
  { subst d1. rewrite srv_rpush_other by discriminate. exact Hc. }
  assert (R2 : reports_of "Redis error while incrementing call count: "
                 (fst (srv_incr "Cache.store" d1)) = []).
  { unfold srv_incr. rewrite D1. destruct n; [reflexivity|].
    cbn [counter_repr]. now rewrite redis_int_repr. }
  rewrite R1, R2, !app_nil_r.
  assert (D3 : d3 !! "Cache.store:outputs" = history_repr outs).
  { subst d3. destruct (redis_encode v).
    - rewrite lookup_insert_ne by congruence. subst d2.
      rewrite srv_incr_other by discriminate. subst d1.
      rewrite srv_rpush_other by discriminate. exact Ho.
    - subst d2. rewrite srv_incr_other by discriminate. subst d1.
      rewrite srv_rpush_other by discriminate. exact Ho. }
  assert (R4 : reports_of "Redis error while pushing outputs: "
                 (fst (srv_rpush "Cache.store:outputs"
                         (encode_utf8 key) d3)) = []).
  { unfold srv_rpush. rewrite D3. now destruct outs. }
  now rewrite R4, app_nil_r.
Qed.
End OneCall.

Lemma get_missing_healthy (key : string) (w : world) :
  healthy w -> db w !! key = None ->
  Cache_get key None w
  = (Ret PNone, World (db w) (tl (faults w)) (urandom w) (stdout w)).
Proof.
  intros Hw Hk. unfold Cache_get, try_redis, bind, redis_get.
  rewrite (transport_healthy _ w Hw). unfold srv_get. now rewrite Hk.
Qed.

Lemma get_list_healthy (key : string) (l : list bytes) (w : world) :
  healthy w -> db w !! key = Some (RList l) ->
  Cache_get key None w
  = (Ret PNone,
     World (db w) (tl (faults w)) (urandom w)
       (stdout w
        ++ ["Redis error while getting data: WRONGTYPE Operation against a key holding the wrong kind of value"])).
Proof.
  intros Hw Hk. unfold Cache_get, try_redis, bind, redis_get.
  rewrite (transport_healthy _ w Hw). unfold srv_get. now rewrite Hk.
Qed.

Section Decorated.
Context `{Builtins}.



End Decorated.



(** ** [store] on any wire *)

Lemma noted_db_cases {A} (report : string) (c : command A) (w : world) :
  db (noted report (transport c) w) = db w
  \/ db (noted report (transport c) w) = snd (c (db w)).
Proof.
  unfold noted, transport.
  destruct (faults w) as [|[|msg|msg] fs]; destruct (c (db w)) as [[a|e] d];
    try destruct e; cbn; auto.
Qed.

Section AnyWire.
Context `{Builtins}.

Lemma noted_set_cases (report k : string) (v : pyval) (w : world) :
  urandom (noted report (redis_set k v) w) = urandom w
  /\ (db (noted report (redis_set k v) w) = db w
      \/ exists b, db (noted report (redis_set k v) w) = <[k := RStr b]> (db w)).
Proof.
  unfold redis_set. destruct (redis_encode v) as [b|e].
  - split; [apply noted_transport|].
    destruct (noted_db_cases report (srv_set k b) w) as [E|E]; [now left|].
    right. exists b. exact E.
  - split; [|left]; unfold noted, raise; destruct e; reflexivity.
Qed.

(** The key space after one call of [store] on any wire: each of the four
    commands has run or has not. *)
Lemma store_db_cases (v : pyval) (w : world) :
  let key := uuid_str (uuid4_int (hd 0%N (urandom w))) in
  exists w' d1 d2 d3,
    Cache_store [v] [] w = (Ret (PStr key), w')
    /\ (d1 = db w
        \/ d1 = snd (srv_rpush "Cache.store:inputs"
                       (encode_utf8 (tuple_str [v])) (db w)))
    /\ (d2 = d1 \/ d2 = snd (srv_incr "Cache.store" d1))
    /\ (d3 = d2 \/ exists b, d3 = <[key := RStr b]> d2)
    /\ (db w' = d3
        \/ db w' = snd (srv_rpush "Cache.store:outputs" (encode_utf8 key) d3)).
Proof.
  intros key. rewrite store_noted. unfold store_trace.
  unfold inputs_noted, counted, outputs_noted, redis_rpush, redis_incr.
  cbn [redis_encode py_str].
  change ("Cache.store" +:+ ":inputs") with "Cache.store:inputs".
  change ("Cache.store" +:+ ":outputs") with "Cache.store:outputs".
  set (w1 := noted _ _ w).
  set (w2 := noted _ _ w1).
  rewrite (uuid4_draw w2).
  assert (U : urandom w2 = urandom w).
  { subst w2 w1. now rewrite !(proj2 (noted_transport _ _ _)). }
  rewrite U. fold key.
  set (w3 := World (db w2) _ _ _).
  set (w4 := noted _ (redis_set key v) w3).
  set (w5 := noted _ _ w4).
  exists w5, (db w1), (db w2), (db w4).
  split; [reflexivity|].
  split; [apply noted_db_cases|].
  split; [apply noted_db_cases|].
  split; [apply (noted_set_cases _ key v w3)|].
  apply noted_db_cases.
Qed.


(** What one call of [store] does to the bookkeeping, on any wire. *)
Lemma store_books_step (v : pyval) (w : world) (n : nat) (ins outs : list bytes) :
  db w !! "Cache.store" = counter_repr n ->
  db w !! "Cache.store:inputs" = history_repr ins ->
  db w !! "Cache.store:outputs" = history_repr outs ->
  exists k w' (c i o : bool),
    Cache_store [v] [] w = (Ret (PStr k), w')
    /\ db w' !! "Cache.store" = counter_repr (if c then S n else n)
    /\ db w' !! "Cache.store:inputs"
       = history_repr (ins ++ if i then [encode_utf8 (tuple_str [v])] else [])
    /\ db w' !! "Cache.store:outputs"
       = history_repr (outs ++ if o then [encode_utf8 k] else []).
Proof.
  intros Hc Hi Ho.
  destruct (store_db_cases v w) as (w' & d1 & d2 & d3 & E & H1 & H2 & H3 & H5).
  set (key := uuid_str (uuid4_int (hd 0%N (urandom w)))) in *.
  assert (Hkey : key <> "Cache.store" /\ key <> "Cache.store:inputs"
                 /\ key <> "Cache.store:outputs")
    by (repeat split; apply uuid_str_fresh; discriminate).
  destruct Hkey as (K1 & K2 & K3).
  assert (A1 : exists i : bool,
             d1 !! "Cache.store" = counter_repr n
             /\ d1 !! "Cache.store:inputs"
                = history_repr (ins ++ if i then [encode_utf8 (tuple_str [v])] else [])
             /\ d1 !! "Cache.store:outputs" = history_repr outs).
  { destruct H1 as [->| ->]; [exists false | exists true].
    - now rewrite app_nil_r.
    - rewrite (srv_rpush_other _ _ _ "Cache.store") by discriminate.
      rewrite (srv_rpush_other _ _ _ "Cache.store:outputs") by discriminate.
      split; [exact Hc|]. split; [now apply srv_rpush_same | exact Ho]. }
  destruct A1 as (i & C1 & I1 & O1).
  assert (A2 : exists c : bool,
             d2 !! "Cache.store" = counter_repr (if c then S n else n)
             /\ d2 !! "Cache.store:inputs" = d1 !! "Cache.store:inputs"
             /\ d2 !! "Cache.store:outputs" = d1 !! "Cache.store:outputs").
  { destruct H2 as [->| ->]; [exists false | exists true]; [auto|].
    rewrite (srv_incr_other _ _ "Cache.store:inputs") by discriminate.
    rewrite (srv_incr_other _ _ "Cache.store:outputs") by discriminate.
    split; [now apply srv_incr_same | auto]. }
  destruct A2 as (c & C2 & I2 & O2).
  assert (A3 : forall k, k <> key -> d3 !! k = d2 !! k).
  { intros k Hk. destruct H3 as [->|[b ->]]; [reflexivity|].
    now apply lookup_insert_ne. }
  exists key, w', c, i.
  destruct H5 as [->| ->]; [exists false | exists true].
  - rewrite !A3 by congruence. rewrite app_nil_r, I2, O2. auto.
  - rewrite (srv_rpush_other _ _ _ "Cache.store") by discriminate.
    rewrite (srv_rpush_other _ _ _ "Cache.store:inputs") by discriminate.
    rewrite (A3 "Cache.store"), (A3 "Cache.store:inputs") by congruence.
    split; [exact E|]. split; [exact C2|]. split; [now rewrite I2|].
    apply srv_rpush_same. rewrite A3 by congruence. now rewrite O2.
Qed.

End AnyWire.



(** ** Records, construction and the bookkeeping keys *)

Section Records.
Context `{Builtins}.

Lemma db_after_store_other v key d k :
  k <> key -> k <> "Cache.store" ->
  k <> "Cache.store:inputs" -> k <> "Cache.store:outputs" ->
  db_after_store v key d !! k = d !! k.
Proof.
  intros K0 K1 K2 K3. unfold db_after_store.
  rewrite srv_rpush_other by congruence.
  assert (E : forall d2 : gmap string rval,
             match redis_encode v with
             | Ret b => <[key := RStr b]> d2
             | Raise _ => d2
             end !! k = d2 !! k).
  { intros d2. destruct (redis_encode v); [|reflexivity].
    now rewrite lookup_insert_ne by congruence. }
  rewrite E, srv_incr_other by congruence.
  now rewrite srv_rpush_other by congruence.
Qed.

Lemma store_each_others (vs : list pyval) :
  forall (w : world) (k : string),
    healthy w ->
    k <> "Cache.store" -> k <> "Cache.store:inputs" ->
    k <> "Cache.store:outputs" ->
    exists ks w',
      store_each vs w = (Ret ks, w')
      /\ healthy w'
      /\ (PStr k ∉ ks -> db w' !! k = db w !! k).
Proof.
  induction vs as [|v vs IH]; intros w k Hw K1 K2 K3.
  - exists [], w. auto.
  - destruct (store_healthy v w Hw) as (u & w1 & E1 & Hw1 & D1).
    destruct (IH w1 k Hw1 K1 K2 K3) as (ks & w2 & E2 & Hw2 & F).
    exists (PStr (uuid_str u) :: ks), w2.
    cbn [store_each]. rewrite (bind_ret _ _ _ _ _ E1), (bind_ret _ _ _ _ _ E2).
    split; [reflexivity|]. split; [exact Hw2|].
    intros Hk. apply not_elem_of_cons in Hk as [Hne Hks].
    rewrite (F Hks), D1. apply db_after_store_other; congruence.
Qed.



End Records.




(** ** What the readers leave alone *)

Lemma read_only_ret {A} (a : A) : read_only (ret a).
Proof. intros w. auto. Qed.

Lemma read_only_raise {A} (e : exn) : read_only (@raise A e).
Proof. intros w. auto. Qed.

Lemma read_only_print (s : string) : read_only (print s).
Proof. intros w. auto. Qed.

Lemma read_only_bind {A B} (c : M A) (k : A -> M B) :
  read_only c -> (forall a, read_only (k a)) -> read_only (bind c k).
Proof.
  intros Hc Hk w. unfold bind. specialize (Hc w).
  destruct (c w) as [[a|e] w1]; cbn in Hc; [|exact Hc].
  destruct (Hk a w1) as [D U]. rewrite D, U. exact Hc.
Qed.

Lemma read_only_try {A} (c : M A) (h : string -> M A) :
  read_only c -> (forall e, read_only (h e)) -> read_only (try_redis c h).
Proof.
  intros Hc Hh w. unfold try_redis. specialize (Hc w).
  destruct (c w) as [[a|e] w1]; cbn in Hc; [exact Hc|].
  destruct e; try exact Hc.
  destruct (Hh msg w1) as [D U]. rewrite D, U. exact Hc.
Qed.

Lemma read_only_transport {A} (c : command A) :
  (forall d, snd (c d) = d) -> read_only (transport c).
Proof.
  intros Hc w. unfold transport. specialize (Hc (db w)).
  destruct (faults w) as [|[|msg|msg] fs]; destruct (c (db w)) as [r d];
    cbn in *; subst; auto.
Qed.

Lemma read_only_get (k : string) : read_only (redis_get k).
Proof.
  apply read_only_transport. intros d. unfold srv_get.
  destruct (d !! k) as [[]|]; reflexivity.
Qed.

Lemma read_only_lrange (k : string) (a b : Z) : read_only (redis_lrange k a b).
Proof.
  apply read_only_transport. intros d. unfold srv_lrange.
  destruct (d !! k) as [[]|]; reflexivity.
Qed.

Lemma read_only_loop (q : string) (pairs : list (bytes * bytes)) :
  read_only (replay_loop q pairs).
Proof.
  induction pairs as [|[i o] rest IH]; cbn [replay_loop].
  - apply read_only_ret.
  - destruct (decode_utf8 i); [|apply read_only_raise].
    destruct (decode_utf8 o); [|apply read_only_raise].
    apply read_only_bind; [apply read_only_print | intros _; exact IH].
Qed.

Lemma read_only_call_count (raw : option bytes) : read_only (call_count raw).
Proof.
  unfold call_count. destruct raw as [[|c r]|]; try apply read_only_ret.
  destruct (py_int _); [apply read_only_ret | apply read_only_raise].
Qed.

(** X13.  [replay] never changes the key space, whatever it is handed
    and whatever the wire does. *)
Theorem replay_reads_only (fn : pyobj) (w : world) :
  db (snd (replay fn w)) = db w /\ urandom (snd (replay fn w)) = urandom w.
Proof.
  revert w. change (read_only (replay fn)). unfold replay.
  destruct (truthy fn); [destruct fn as [v|q|r q]|]; try apply read_only_print.
  destruct (has_redis r); [|apply read_only_print].
  apply read_only_try; [|intros e; apply read_only_print].
  apply read_only_bind; [apply read_only_get | intros raw].
  apply read_only_bind; [apply read_only_call_count | intros n].
  apply read_only_bind; [apply read_only_print | intros _].
  apply read_only_bind; [apply read_only_lrange | intros ins].
  apply read_only_bind; [apply read_only_lrange | intros outs].
  apply read_only_loop.
Qed.

(** X14.  [get] without a transform, [get_str] and [get_int] never
    change the key space, whatever the key and the state of the wire. *)
Theorem get_reads_only (key : string) :
  read_only (Cache_get key None)
  /\ read_only (Cache_get_str key)
  /\ read_only (Cache_get_int key).
Proof.
  assert (G : forall g : option (bytes -> M pyval),
             (forall f b, g = Some f -> read_only (f b)) ->
             read_only (Cache_get key g)).
  { intros g Hg. unfold Cache_get.
    apply read_only_try;
      [|intros e; apply read_only_bind;
                    [apply read_only_print | intros _; apply read_only_ret]].
    apply read_only_bind; [apply read_only_get | intros [b|]];
      [|apply read_only_ret].
    destruct g as [f|]; [now apply (Hg f) | apply read_only_ret]. }
  split; [apply G; intros f b [=]|].
  split; apply G; intros f b [= <-].
  - unfold decode_fn. destruct (decode_utf8 b);
      [apply read_only_ret | apply read_only_raise].
  - unfold int_fn. destruct (py_int b);
      [apply read_only_ret | apply read_only_raise].
Qed.

(** ** Replay that cannot finish *)

Lemma replay_loop_app (q : string) (l1 l2 : list (bytes * bytes)) (w : world) :
  replay_loop q (l1 ++ l2) w
  = bind (replay_loop q l1) (fun _ => replay_loop q l2) w.
Proof.
  revert w. induction l1 as [|[i o] l1 IH]; intros w; [reflexivity|].
  cbn [app replay_loop].
  destruct (decode_utf8 i); [|reflexivity].
  destruct (decode_utf8 o); [|reflexivity].
  rewrite bind_assoc. unfold bind at 1 3, print. cbn beta iota. apply IH.
Qed.

(** [replay] on bookkeeping as the decorators leave it, undisturbed. *)
Lemma replay_books (q : string) (n : nat) (is_ os : list string) (w : world) :
  healthy w ->
  db w !! q = counter_repr n ->
  db w !! (q +:+ ":inputs") = history_repr (map encode_utf8 is_) ->
  db w !! (q +:+ ":outputs") = history_repr (map encode_utf8 os) ->
  Forall utf8_text is_ -> Forall utf8_text os ->
  replay (OBoundMethod Facade q) w
  = (Ret tt,
     World (db w) (tl (tl (tl (faults w)))) (urandom w)
       (stdout w
        ++ summary q (Z.of_nat n)
           :: map (fun io => replay_entry q io.1 io.2) (zip is_ os))).
Proof.
  intros Hw Hc Hi Ho Vi Vo.
  destruct (get_counter_healthy q w n Hw Hc) as (raw & Eget & Ecount).
  unfold replay. cbn [truthy has_redis]. unfold try_redis.
  rewrite (bind_ret _ _ _ _ _ Eget), (bind_ret _ _ _ _ _ (Ecount _)).
  unfold bind at 1, print at 1. cbn beta iota.
  set (w1 := World _ _ _ _).
  assert (Hw1 : healthy w1) by (subst w1; now apply healthy_tail).
  rewrite (bind_ret _ _ _ _ _ (lrange_history_healthy _ w1 _ Hw1 Hi)).
  set (w2 := World _ _ _ _).
  assert (Hw2 : healthy w2) by (subst w2; now apply healthy_tail).
  rewrite (bind_ret _ _ _ _ _ (lrange_history_healthy _ w2 _ Hw2 Ho)).
  rewrite (replay_loop_prints q is_ os Vi Vo).
  cbn [db faults urandom stdout]. subst w2 w1. cbn [db faults urandom stdout].
  now rewrite <- app_assoc.
Qed.

(** X15.  When the counter key holds a string that is not an integer
    literal, [replay] raises [ValueError] before printing anything: the
    handler around its body catches [RedisError] only. *)
Theorem replay_unreadable_count (q : string) (b : bytes) (w : world) :
  healthy w ->
  db w !! q = Some (RStr b) -> b <> [] -> py_int b = None ->
  replay (OBoundMethod Facade q) w
  = (Raise (ValueError b),
     World (db w) (tl (faults w)) (urandom w) (stdout w)).
Proof.
  intros Hw Hq Hb Hp. unfold replay. cbn [truthy has_redis].
  unfold try_redis, bind at 1, redis_get.
  rewrite (transport_healthy _ w Hw). unfold srv_get. rewrite Hq.
  cbn [fst snd]. unfold bind at 1, call_count.
  destruct b as [|c r]; [contradiction|]. now rewrite Hp.
Qed.


Lemma call_count_counter (n : nat) (w : world) :
  call_count (match counter_repr n with
              | Some (RStr b) => Some b
              | _ => None
              end) w = (Ret (Z.of_nat n), w).
Proof.
  destruct n as [|n]; [reflexivity|]. cbn [counter_repr].
  pose proof (py_int_repr (Z.of_nat (S n))) as Hp.
  unfold call_count. destruct (encode_utf8 _) as [|c r]; [discriminate Hp|].
  now rewrite Hp.
Qed.

Lemma srv_get_counter (q : string) (d : gmap string rval) (n : nat) :
  d !! q = counter_repr n ->
  srv_get q d = (Ret (match counter_repr n with
                      | Some (RStr b) => Some b
                      | _ => None
                      end), d).
Proof. intros Hq. unfold srv_get. rewrite Hq. now destruct n. Qed.

Lemma srv_lrange_history (k : string) (d : gmap string rval) (l : list bytes) :
  d !! k = history_repr l -> srv_lrange k 0 (-1) d = (Ret l, d).
Proof.
  intros Hk. unfold srv_lrange. rewrite Hk.
  destruct l as [|a l]; [reflexivity|]. cbn [history_repr]. now rewrite lrange_all.
Qed.


(** X18.  Right after construction [replay] of any method of the facade
    prints a count of 0 and nothing else, whatever the server held
    before. *)
Theorem replay_after_init (q : string) (w : world) :
  healthy w ->
  (Cache_init ;;; replay (OBoundMethod Facade q)) w
  = (Ret tt,
     World ∅ (tl (tl (tl (tl (faults w))))) (urandom w)
       (stdout w ++ [summary q 0])).
Proof.
  intros Hw.
  assert (E : Cache_init w
              = (Ret tt, World ∅ (tl (faults w)) (urandom w) (stdout w))).
  { unfold Cache_init, try_redis, redis_flushdb.
    now rewrite (transport_healthy _ w Hw). }
  rewrite (bind_ret _ _ _ _ _ E).
  rewrite (replay_books q 0 [] []); [reflexivity|..];
    try apply lookup_empty; try constructor.
  now apply healthy_tail.
Qed.

Lemma replay_unreadable_count_witness :
  let w := World {[ "Cache.store" := RStr (encode_utf8 "many") ]} [] [] [] in
  healthy w
  /\ replay (OBoundMethod Facade "Cache.store") w
     = (Raise (ValueError (encode_utf8 "many")), w).
Proof.
  cbn zeta. split; [apply Forall_nil_2|].
  refine (replay_unreadable_count "Cache.store" (encode_utf8 "many")
            (World {[ "Cache.store" := RStr (encode_utf8 "many") ]} [] [] [])
            _ _ _ _);
    [apply Forall_nil_2 | reflexivity | discriminate | reflexivity].
Defined.



Lemma replay_after_init_witness :
  let w := World {[ "Cache.get" := RStr (encode_utf8 "41") ]} [] [] [] in
  healthy w
  /\ (Cache_init ;;; replay (OBoundMethod Facade "Cache.get")) w
     = (Ret tt, World ∅ [] [] ["Cache.get was called 0 times:"]).
Proof.
  cbn zeta. split; [apply Forall_nil_2|].
  refine (replay_after_init "Cache.get"
            (World {[ "Cache.get" := RStr (encode_utf8 "41") ]} [] [] []) _).
  apply Forall_nil_2.
Defined.

(** ** A whole session *)

Lemma hex_digit_ascii (d : N) :
  (d < 16)%N -> in_range 0 127 (byte_of_ascii (hex_digit d)) = true.
Proof.
  intros Hd.
  assert (Hcases : (d = 0 \/ d = 1 \/ d = 2 \/ d = 3 \/ d = 4 \/ d = 5
                    \/ d = 6 \/ d = 7 \/ d = 8 \/ d = 9 \/ d = 10 \/ d = 11
                    \/ d = 12 \/ d = 13 \/ d = 14 \/ d = 15)%N) by lia.
  repeat (destruct Hcases as [->|Hcases]; [reflexivity|]).
  subst d. reflexivity.
Qed.

(** A generated key is plain ASCII. *)
Lemma uuid_str_text (n : N) : utf8_text (uuid_str n).
Proof.
  unfold utf8_text. apply ascii_utf8.
  unfold uuid_str.
  cbv [hex_fixed String.substring String.append encode_utf8
       list_byte_of_string list_ascii_of_string List.map].
  repeat (constructor;
          [ first [ reflexivity
                  | apply hex_digit_ascii, N.mod_lt; discriminate ] | ]).
  constructor.
Qed.

Lemma zip_entries {A B} (E : string -> string -> string)
    (f : A -> string) (g : B -> string) (h : B -> pyval)
    (vs : list A) (us : list B) :
  (forall u, key_text (h u) = g u) ->
  map (fun io => E io.1 io.2) (zip (map f vs) (map g us))
  = map (fun vk => E (f vk.1) (key_text vk.2)) (zip vs (map h us)).
Proof.
  intros Hh. revert us.
  induction vs as [|v vs IH]; intros [|u us]; cbn; try reflexivity.
  now rewrite IH, Hh.
Qed.

Section Session.
Context `{Builtins}.

Lemma store_each_session (vs : list pyval) :
  forall (w : world) (n : nat) (ins outs : list bytes),
    healthy w ->
    db w !! "Cache.store" = counter_repr n ->
    db w !! "Cache.store:inputs" = history_repr ins ->
    db w !! "Cache.store:outputs" = history_repr outs ->
    Forall (fun v => supported v = true) vs ->
    exists us w',
      store_each vs w = (Ret (map (fun u => PStr (uuid_str u)) us), w')
      /\ healthy w'
      /\ length us = length vs
      /\ db w' !! "Cache.store" = counter_repr (n + length vs)
      /\ db w' !! "Cache.store:inputs"
         = history_repr (ins ++ map (fun v => encode_utf8 (tuple_str [v])) vs)
      /\ db w' !! "Cache.store:outputs"
         = history_repr (outs ++ map (fun u => encode_utf8 (uuid_str u)) us)
      /\ stdout w' = stdout w.
Proof.
  induction vs as [|v vs IH]; intros w n ins outs Hw Hc Hi Ho Hs.
  - exists [], w. cbn. rewrite Nat.add_0_r, !app_nil_r. auto 10.
  - apply Forall_cons in Hs as [Hv Hs].
    destruct (store_call_books v w n ins outs Hw Hc Hi Ho)
      as (w1 & E1 & Hw1 & D1 & _ & S1).
    set (u := uuid4_int (hd 0%N (urandom w))) in *.
    destruct (db_after_store_books v (uuid_str u) (db w) n ins outs)
      as (Hc1 & Hi1 & Ho1); try assumption;
      try (apply uuid_str_fresh; discriminate).
    rewrite <- D1 in Hc1, Hi1, Ho1.
    destruct (IH w1 (S n) _ _ Hw1 Hc1 Hi1 Ho1 Hs)
      as (us & w2 & E2 & Hw2 & Hl & Hc2 & Hi2 & Ho2 & S2).
    exists (u :: us), w2.
    cbn [store_each]. rewrite (bind_ret _ _ _ _ _ E1), (bind_ret _ _ _ _ _ E2).
    split; [reflexivity|]. split; [exact Hw2|].
    split; [cbn; now rewrite Hl|].
    split; [rewrite Hc2; f_equal; cbn; lia|].
    split; [rewrite Hi2, <- app_assoc; reflexivity|].
    split; [rewrite Ho2, <- app_assoc; reflexivity|].
    rewrite S2, S1.
    destruct v; try discriminate Hv; cbn; now rewrite app_nil_r.
Qed.

End Session.

